(** * CoreHapticsFFI: the C interface of the haptics bridge

    The repository is one header, [CoreHapticsFFI.h].  Its content is a set
    of declarations: three handle typedefs, one callback typedef, two
    anonymous enumerations and twenty-four function prototypes.  The first
    part of this development embeds those declarations as data, together
    with the few rules of C that give them a meaning (values of
    enumerators, typedef expansion, range of [int32_t], conversion of an
    argument to a parameter type).  The second part models the behaviour
    that the header alone does not fix. *)

From stdpp Require Import gmap strings list.
From Stdlib Require Import ZArith Lia PrimFloat.

Local Open Scope Z_scope.
Local Open Scope string_scope.

(** ** C types occurring in the header *)

Inductive ctype :=
| Void
| Char
| UInt8                      (* uint8_t *)
| Int32                      (* int32_t *)
| Double
| Const (t : ctype)          (* const t *)
| Ptr (t : ctype)            (* t* *)
| Named (n : string).        (* a typedef name *)

#[global] Instance ctype_eq_dec : EqDecision ctype.
Proof. solve_decision. Defined.

(** What a typedef may stand for in this header: an object type, or a
    pointer to a function with the given result and parameters. *)
Inductive typedef_body :=
| Object (t : ctype)
| FunPtr (ret : ctype) (params : list (string * ctype)).

Record enumerator := Enumerator { ename : string; einit : option Z }.

Record fundecl := FunDecl {
  fname : string;
  fret : ctype;
  fparams : list (string * ctype)   (* [] is the prototype [(void)] *)
}.

(** ** The declarations, in the order of the header *)

Module Header.

Definition typedefs : list (string * typedef_body) :=
  [ ("CHFFIEngineHandle", Object (Ptr Void));
    ("CHFFIPatternHandle", Object (Ptr Void));
    ("CHFFIPlayerHandle", Object (Ptr Void));
    ("CHFFIEngineCallback",
      FunPtr Void [ ("eventCode", Int32);
                    ("message", Ptr (Const Char));
                    ("context", Ptr Void) ]) ].

Definition error_enum : list enumerator :=
  [ Enumerator "CHFFI_ERROR_OK" (Some 0);
    Enumerator "CHFFI_ERROR_NOT_SUPPORTED" (Some 1);
    Enumerator "CHFFI_ERROR_ENGINE" (Some 2);
    Enumerator "CHFFI_ERROR_INVALID_HANDLE" (Some 3);
    Enumerator "CHFFI_ERROR_INVALID_ARGUMENT" (Some 4);
    Enumerator "CHFFI_ERROR_PATTERN" (Some 5);
    Enumerator "CHFFI_ERROR_PLAYER" (Some 6);
    Enumerator "CHFFI_ERROR_IO" (Some 7);
    Enumerator "CHFFI_ERROR_DECODE" (Some 8);
    Enumerator "CHFFI_ERROR_RUNTIME" (Some 9);
    Enumerator "CHFFI_ERROR_UNKNOWN" (Some 255) ].

Definition event_enum : list enumerator :=
  [ Enumerator "CHFFI_EVENT_ENGINE_STOPPED" (Some 1);
    Enumerator "CHFFI_EVENT_ENGINE_RESET" (Some 2);
    Enumerator "CHFFI_EVENT_ENGINE_INTERRUPTED" (Some 3);
    Enumerator "CHFFI_EVENT_ENGINE_RESTARTED" (Some 4) ].

Definition chffi_string_free :=
  FunDecl "chffi_string_free" Int32 [ ("message", Ptr (Const Char)) ].

Definition chffi_engine_create :=
  FunDecl "chffi_engine_create" Int32
    [ ("outHandle", Ptr (Named "CHFFIEngineHandle"));
      ("callback", Named "CHFFIEngineCallback");
      ("context", Ptr Void);
      ("message", Ptr (Ptr Char)) ].
Definition chffi_engine_start :=
  FunDecl "chffi_engine_start" Int32
    [ ("handle", Named "CHFFIEngineHandle"); ("message", Ptr (Ptr Char)) ].
Definition chffi_engine_stop :=
  FunDecl "chffi_engine_stop" Int32
    [ ("handle", Named "CHFFIEngineHandle"); ("message", Ptr (Ptr Char)) ].
Definition chffi_engine_release :=
  FunDecl "chffi_engine_release" Void [ ("handle", Named "CHFFIEngineHandle") ].

Definition chffi_pattern_from_ahap_data :=
  FunDecl "chffi_pattern_from_ahap_data" Int32
    [ ("bytes", Ptr (Const UInt8));
      ("length", Int32);
      ("outPattern", Ptr (Named "CHFFIPatternHandle"));
      ("message", Ptr (Ptr Char)) ].
Definition chffi_pattern_from_ahap_file :=
  FunDecl "chffi_pattern_from_ahap_file" Int32
    [ ("path", Ptr (Const Char));
      ("outPattern", Ptr (Named "CHFFIPatternHandle"));
      ("message", Ptr (Ptr Char)) ].
Definition chffi_pattern_release :=
  FunDecl "chffi_pattern_release" Void [ ("handle", Named "CHFFIPatternHandle") ].

Definition chffi_player_create :=
  FunDecl "chffi_player_create" Int32
    [ ("engine", Named "CHFFIEngineHandle");
      ("pattern", Named "CHFFIPatternHandle");
      ("outPlayer", Ptr (Named "CHFFIPlayerHandle"));
      ("message", Ptr (Ptr Char)) ].
Definition chffi_player_play :=
  FunDecl "chffi_player_play" Int32
    [ ("player", Named "CHFFIPlayerHandle"); ("atTime", Double);
      ("message", Ptr (Ptr Char)) ].
Definition chffi_player_stop :=
  FunDecl "chffi_player_stop" Int32
    [ ("player", Named "CHFFIPlayerHandle"); ("atTime", Double);
      ("message", Ptr (Ptr Char)) ].
Definition chffi_player_set_loop :=
  FunDecl "chffi_player_set_loop" Int32
    [ ("player", Named "CHFFIPlayerHandle");
      ("enabled", Int32);
      ("loopStart", Double);
      ("loopEnd", Double);
      ("message", Ptr (Ptr Char)) ].
Definition chffi_player_send_parameter :=
  FunDecl "chffi_player_send_parameter" Int32
    [ ("player", Named "CHFFIPlayerHandle");
      ("parameterId", Int32);
      ("value", Double);
      ("atTime", Double);
      ("message", Ptr (Ptr Char)) ].
Definition chffi_player_release :=
  FunDecl "chffi_player_release" Void [ ("player", Named "CHFFIPlayerHandle") ].

Definition chffi_supports_haptics := FunDecl "chffi_supports_haptics" Int32 [].

Definition chffi_impact_light := FunDecl "chffi_impact_light" Void [].
Definition chffi_impact_medium := FunDecl "chffi_impact_medium" Void [].
Definition chffi_impact_heavy := FunDecl "chffi_impact_heavy" Void [].
Definition chffi_impact_soft := FunDecl "chffi_impact_soft" Void [].
Definition chffi_impact_rigid := FunDecl "chffi_impact_rigid" Void [].

Definition chffi_notification_success := FunDecl "chffi_notification_success" Void [].
Definition chffi_notification_warning := FunDecl "chffi_notification_warning" Void [].
Definition chffi_notification_error := FunDecl "chffi_notification_error" Void [].

Definition chffi_selection := FunDecl "chffi_selection" Void [].

Definition functions : list fundecl :=
  [ chffi_string_free;
    chffi_engine_create; chffi_engine_start; chffi_engine_stop;
    chffi_engine_release;
    chffi_pattern_from_ahap_data; chffi_pattern_from_ahap_file;
    chffi_pattern_release;
    chffi_player_create; chffi_player_play; chffi_player_stop;
    chffi_player_set_loop; chffi_player_send_parameter;
    chffi_player_release;
    chffi_supports_haptics;
    chffi_impact_light; chffi_impact_medium; chffi_impact_heavy;
    chffi_impact_soft; chffi_impact_rigid;
    chffi_notification_success; chffi_notification_warning;
    chffi_notification_error;
    chffi_selection ].

End Header.

(** ** Rules of C that give the declarations their meaning *)

(** Value of each enumerator: its initialiser when it has one, otherwise
    one more than its predecessor, starting from zero. *)
Fixpoint enum_values_from (next : Z) (es : list enumerator) : list (string * Z) :=
  match es with
  | [] => []
  | e :: es' =>
      let v := default next (einit e) in
      (ename e, v) :: enum_values_from (v + 1) es'
  end.

Definition enum_values : list enumerator -> list (string * Z) :=
  enum_values_from 0.

Definition enum_value (es : list enumerator) (name : string) : option Z :=
  snd <$> List.find (fun p => String.eqb (fst p) name) (enum_values es).

Definition find_function (name : string) : option fundecl :=
  List.find (fun f => String.eqb (fname f) name) Header.functions.

Definition param_type (f : fundecl) (name : string) : option ctype :=
  snd <$> List.find (fun p => String.eqb (fst p) name) (fparams f).

(** The message out-parameter of the error reporting convention: a
    parameter [char** message]. *)
Definition message_param : string * ctype := ("message", Ptr (Ptr Char)).

(** The type of what a pointer points to. *)
Definition pointee (t : ctype) : option ctype :=
  match t with Ptr u => Some u | _ => None end.

Definition has_message_param (f : fundecl) : bool :=
  bool_decide (message_param ∈ fparams f).

(** One step of typedef expansion, and its iteration: a chain of typedefs
    is never longer than the table, since a name is declared before use. *)
Fixpoint expand (t : ctype) : ctype :=
  match t with
  | Named n =>
      match List.find (fun d => String.eqb (fst d) n) Header.typedefs with
      | Some (_, Object u) => u
      | _ => t
      end
  | Const u => Const (expand u)
  | Ptr u => Ptr (expand u)
  | _ => t
  end.

Definition resolve (t : ctype) : ctype :=
  Nat.iter (length Header.typedefs) expand t.

(** Values of the integer types of the header. *)
Definition int_range (t : ctype) : option (Z * Z) :=
  match resolve t with
  | Int32 => Some (- 2 ^ 31, 2 ^ 31 - 1)
  | UInt8 => Some (0, 2 ^ 8 - 1)
  | _ => None
  end.

Definition representable (t : ctype) (z : Z) : Prop :=
  match int_range t with
  | Some (lo, hi) => lo <= z <= hi
  | None => False
  end.

(** Passing an argument of type [arg] for a parameter of type [param]
    (the constraints of simple assignment): arithmetic types convert to one
    another; a pointer converts to a pointer when the pointed-to types
    agree up to qualifiers or one of them is [void], and the target keeps
    every qualifier of the source. *)
Definition unqualified (t : ctype) : ctype :=
  match t with Const u => u | _ => t end.

Definition is_const (t : ctype) : bool :=
  match t with Const _ => true | _ => false end.

Definition arithmetic (t : ctype) : bool :=
  match t with Char | UInt8 | Int32 | Double => true | _ => false end.

Definition is_void (t : ctype) : bool :=
  match t with Void => true | _ => false end.

Definition accepts (param arg : ctype) : bool :=
  match unqualified (resolve param), unqualified (resolve arg) with
  | Ptr a, Ptr b =>
      implb (is_const b) (is_const a)
      && (bool_decide (unqualified a = unqualified b)
          || is_void (unqualified a) || is_void (unqualified b))
  | Named a, Named b => String.eqb a b
  | a, b => arithmetic a && arithmetic b
  end.

(** ** Behaviour behind the interface

    The header declares the functions; the file that implements them by
    forwarding to the native haptics framework is not part of the sources.
    The module below models that implementation from the specification:
    the wrapper keeps track of the handles and message strings it has
    given out, and everything else is delegated to the native framework,
    which stays abstract (class [Framework]). *)

Module Impl.

(** Modelled from the spec: the success status the missing
    implementation reports, with the value the header gives it. *)
Definition CHFFI_ERROR_OK : Z := 0.

(** Modelled from the spec: the invalid-handle status the missing
    implementation reports, with the value the header gives it. *)
Definition CHFFI_ERROR_INVALID_HANDLE : Z := 3.

(** Modelled from the spec: the calls into the native framework, one per
    forwarding function of the missing implementation file.  Addresses
    are [positive]; a C pointer is an [option positive], [None] being
    the null pointer. *)
Inductive request :=
| EngineCreate (engine : positive) (callback context : option positive)
| EngineStart (engine : positive)
| EngineStop (engine : positive)
| EngineRelease (engine : positive)
| PatternFromData (pattern : positive) (bytes : option (list Z)) (length : Z)
| PatternFromFile (pattern : positive) (path : option string)
| PatternRelease (pattern : positive)
| PlayerCreate (player engine pattern : positive)
| PlayerPlay (player : positive) (atTime : float)
| PlayerStop (player : positive) (atTime : float)
| PlayerSetLoop (player : positive) (enabled : Z) (loopStart loopEnd : float)
| PlayerSendParameter (player : positive) (parameterId : Z) (value atTime : float)
| PlayerRelease (player : positive).

(** Modelled from the spec: the wrapped native framework, which the
    repository does not contain.  [forward] performs a call and returns
    the status the wrapper reports for it; [explains] says whether a
    failure comes with a message, which the spec leaves open. *)
Class Framework := {
  vendor : Type;
  supported : vendor -> bool;
  forward : request -> vendor -> vendor * Z;
  explains : vendor -> Z -> bool
}.

(** What a status-returning function hands back: the status, the
    message written through [char** message] (if any) and the handle
    written through the out-parameter of a creating function. *)
Record outcome := Outcome {
  status : Z;
  message : option positive;
  out : option positive
}.

Section Wrapper.
Context `{F : Framework}.

(** Modelled from the spec: the state of the missing implementation:
    the live handles of each kind (a player with the engine and the
    pattern it was created from), the message strings not yet freed,
    and the state of the native framework. *)
Record impl := Impl {
  engines : gset positive;
  patterns : gset positive;
  players : gmap positive (positive * positive);
  messages : gset positive;
  native : vendor
}.

(** Modelled from the spec: the state of the missing implementation
    before any call: nothing has been created. *)
Definition initial (v : vendor) : impl := Impl ∅ ∅ ∅ ∅ v.

Definition with_native (v : vendor) (s : impl) : impl :=
  Impl (engines s) (patterns s) (players s) (messages s) v.

Definition allocated (s : impl) : gset positive :=
  engines s ∪ patterns s ∪ dom (players s) ∪ messages s.

(** Modelled from the spec: failure of a function of the missing
    implementation: the status code, and possibly a message allocated
    by the callee. *)
Definition failure (code : Z) (s : impl) : impl * outcome :=
  if explains (native s) code then
    let m := fresh (allocated s) in
    (Impl (engines s) (patterns s) (players s) ({[m]} ∪ messages s) (native s),
     Outcome code (Some m) None)
  else (s, Outcome code None None).

(** Modelled from the spec: a forwarding stub of the missing
    implementation, for a call that creates nothing. *)
Definition call (r : request) (s : impl) : impl * outcome :=
  let '(v, code) := forward r (native s) in
  if decide (code = CHFFI_ERROR_OK)
  then (with_native v s, Outcome CHFFI_ERROR_OK None None)
  else failure code (with_native v s).

(** Modelled from the spec: a forwarding stub of the missing
    implementation that creates an object: on success the new handle
    is registered and written to the out-parameter. *)
Definition create (r : positive -> request)
    (register : positive -> impl -> impl) (s : impl) : impl * outcome :=
  let h := fresh (allocated s) in
  let '(v, code) := forward (r h) (native s) in
  if decide (code = CHFFI_ERROR_OK)
  then (register h (with_native v s), Outcome CHFFI_ERROR_OK None (Some h))
  else failure code (with_native v s).

Definition add_engine (h : positive) (s : impl) : impl :=
  Impl ({[h]} ∪ engines s) (patterns s) (players s) (messages s) (native s).
Definition add_pattern (h : positive) (s : impl) : impl :=
  Impl (engines s) ({[h]} ∪ patterns s) (players s) (messages s) (native s).
Definition add_player (e p h : positive) (s : impl) : impl :=
  Impl (engines s) (patterns s) (<[h:=(e, p)]> (players s)) (messages s) (native s).

(** Modelled from the spec: [chffi_string_free] of the missing
    implementation.  A live message is released; a pointer that is not
    a live message (freed already, or never produced) is undefined
    behaviour, rendered as [None].  The spec does not say what a null
    pointer does; it is taken to be ignored. *)
Definition chffi_string_free (msg : option positive) (s : impl)
    : option (impl * Z) :=
  match msg with
  | None => Some (s, CHFFI_ERROR_OK)
  | Some m =>
      if decide (m ∈ messages s)
      then Some (Impl (engines s) (patterns s) (players s)
                      (messages s ∖ {[m]}) (native s), CHFFI_ERROR_OK)
      else None
  end.

(** Modelled from the spec: the engine functions of the missing
    implementation. *)
Definition chffi_engine_create (callback context : option positive)
    : impl -> impl * outcome :=
  create (fun h => EngineCreate h callback context) add_engine.

(** Modelled from the spec: [chffi_engine_start] of the missing
    implementation: the handle is checked, then the call is forwarded. *)
Definition chffi_engine_start (handle : option positive) (s : impl)
    : impl * outcome :=
  match handle with
  | Some e =>
      if decide (e ∈ engines s) then call (EngineStart e) s
      else failure CHFFI_ERROR_INVALID_HANDLE s
  | None => failure CHFFI_ERROR_INVALID_HANDLE s
  end.

(** Modelled from the spec: [chffi_engine_stop] of the missing
    implementation: the handle is checked, then the call is forwarded. *)
Definition chffi_engine_stop (handle : option positive) (s : impl)
    : impl * outcome :=
  match handle with
  | Some e =>
      if decide (e ∈ engines s) then call (EngineStop e) s
      else failure CHFFI_ERROR_INVALID_HANDLE s
  | None => failure CHFFI_ERROR_INVALID_HANDLE s
  end.

(** Modelled from the spec: the pattern functions of the missing
    implementation. *)
Definition chffi_pattern_from_ahap_data (bytes : option (list Z)) (length : Z)
    : impl -> impl * outcome :=
  create (fun h => PatternFromData h bytes length) add_pattern.

(** Modelled from the spec: [chffi_pattern_from_ahap_file] of the
    missing implementation. *)
Definition chffi_pattern_from_ahap_file (path : option string)
    : impl -> impl * outcome :=
  create (fun h => PatternFromFile h path) add_pattern.

(** Modelled from the spec: the player functions of the missing
    implementation. *)
Definition chffi_player_create (engine pattern : option positive) (s : impl)
    : impl * outcome :=
  match engine, pattern with
  | Some e, Some p =>
      if decide (e ∈ engines s ∧ p ∈ patterns s)
      then create (fun h => PlayerCreate h e p) (add_player e p) s
      else failure CHFFI_ERROR_INVALID_HANDLE s
  | _, _ => failure CHFFI_ERROR_INVALID_HANDLE s
  end.

(** Modelled from the spec: the common shape of the four player
    controls of the missing implementation. *)
Definition on_player (player : option positive) (r : positive -> request)
    (s : impl) : impl * outcome :=
  match player with
  | Some p =>
      if decide (p ∈ dom (players s)) then call (r p) s
      else failure CHFFI_ERROR_INVALID_HANDLE s
  | None => failure CHFFI_ERROR_INVALID_HANDLE s
  end.

(** Modelled from the spec: [chffi_player_play] of the missing
    implementation. *)
Definition chffi_player_play (player : option positive) (atTime : float)
    : impl -> impl * outcome :=
  on_player player (fun p => PlayerPlay p atTime).

(** Modelled from the spec: [chffi_player_stop] of the missing
    implementation. *)
Definition chffi_player_stop (player : option positive) (atTime : float)
    : impl -> impl * outcome :=
  on_player player (fun p => PlayerStop p atTime).

(** Modelled from the spec: [chffi_player_set_loop] of the missing
    implementation. *)
Definition chffi_player_set_loop (player : option positive) (enabled : Z)
    (loopStart loopEnd : float) : impl -> impl * outcome :=
  on_player player (fun p => PlayerSetLoop p enabled loopStart loopEnd).

(** Modelled from the spec: [chffi_player_send_parameter] of the
    missing implementation. *)
Definition chffi_player_send_parameter (player : option positive)
    (parameterId : Z) (value atTime : float) : impl -> impl * outcome :=
  on_player player (fun p => PlayerSendParameter p parameterId value atTime).

(** Modelled from the spec: the capability query of the missing
    implementation: a question to the native framework, answered by 1
    or 0. *)
Definition chffi_supports_haptics (s : impl) : impl * Z :=
  (s, if supported (native s) then 1 else 0).

(** The ten functions that return a status and take [char** message],
    as one type of calls, and their execution. *)
Inductive operation :=
| engine_create (callback context : option positive)
| engine_start (handle : option positive)
| engine_stop (handle : option positive)
| pattern_from_ahap_data (bytes : option (list Z)) (length : Z)
| pattern_from_ahap_file (path : option string)
| player_create (engine pattern : option positive)
| player_play (player : option positive) (atTime : float)
| player_stop (player : option positive) (atTime : float)
| player_set_loop (player : option positive) (enabled : Z)
    (loopStart loopEnd : float)
| player_send_parameter (player : option positive) (parameterId : Z)
    (value atTime : float).

Definition run (o : operation) : impl -> impl * outcome :=
  match o with
  | engine_create cb ctx => chffi_engine_create cb ctx
  | engine_start h => chffi_engine_start h
  | engine_stop h => chffi_engine_stop h
  | pattern_from_ahap_data b n => chffi_pattern_from_ahap_data b n
  | pattern_from_ahap_file p => chffi_pattern_from_ahap_file p
  | player_create e p => chffi_player_create e p
  | player_play p t => chffi_player_play p t
  | player_stop p t => chffi_player_stop p t
  | player_set_loop p en a b => chffi_player_set_loop p en a b
  | player_send_parameter p i v t => chffi_player_send_parameter p i v t
  end.

(** The name under which the header declares an operation. *)
Definition name_of (o : operation) : string :=
  match o with
  | engine_create _ _ => "chffi_engine_create"
  | engine_start _ => "chffi_engine_start"
  | engine_stop _ => "chffi_engine_stop"
  | pattern_from_ahap_data _ _ => "chffi_pattern_from_ahap_data"
  | pattern_from_ahap_file _ => "chffi_pattern_from_ahap_file"
  | player_create _ _ => "chffi_player_create"
  | player_play _ _ => "chffi_player_play"
  | player_stop _ _ => "chffi_player_stop"
  | player_set_loop _ _ _ _ => "chffi_player_set_loop"
  | player_send_parameter _ _ _ _ => "chffi_player_send_parameter"
  end.

(** The state after a sequence of operations, results dropped. *)
Definition run_all (os : list operation) (s : impl) : impl :=
  foldl (fun st o => fst (run o st)) s os.

(** What a result may do to the message strings of the state [s] it was
    computed from: nothing, or add the one fresh string it returns. *)
Definition reports (s : impl) (res : impl * outcome) : Prop :=
  match message (snd res) with
  | None => messages (fst res) = messages s
  | Some m => (m ∉ allocated s) /\ messages (fst res) = {[m]} ∪ messages s
  end.

(** The rest of the state is left as it was. *)
Definition same_objects (s s' : impl) : Prop :=
  engines s' = engines s /\ patterns s' = patterns s
  /\ players s' = players s /\ native s' = native s.

End Wrapper.

Arguments impl {F}.

(** A framework to run the model on: it has no haptics hardware, creates
    engines and patterns, refuses everything else with the engine error,
    and explains every failure. *)
Definition stub : Framework := {|
  vendor := unit;
  supported := fun _ => false;
  forward := fun r v =>
    match r with
    | EngineCreate _ _ _ | PatternFromData _ _ _ | PatternFromFile _ _
    | EngineRelease _ | PatternRelease _ | PlayerRelease _ => (v, 0)
    | _ => (v, 2)
    end;
  explains := fun _ _ => true
|}.

(** The wrapper over [stub] before any call. *)
Definition power_on : @impl stub := @initial stub tt.

End Impl.

(** ** Groups of functions named by the specification *)

Definition release_functions : list string :=
  [ "chffi_engine_release"; "chffi_pattern_release"; "chffi_player_release" ].

Definition one_shot_functions : list string :=
  [ "chffi_impact_light"; "chffi_impact_medium"; "chffi_impact_heavy";
    "chffi_impact_soft"; "chffi_impact_rigid";
    "chffi_notification_success"; "chffi_notification_warning";
    "chffi_notification_error";
    "chffi_selection" ].

Definition message_functions : list string :=
  [ "chffi_engine_create"; "chffi_engine_start"; "chffi_engine_stop";
    "chffi_pattern_from_ahap_data"; "chffi_pattern_from_ahap_file";
    "chffi_player_create"; "chffi_player_play"; "chffi_player_stop";
    "chffi_player_set_loop"; "chffi_player_send_parameter" ].

Definition handle_types : list string :=
  [ "CHFFIEngineHandle"; "CHFFIPatternHandle"; "CHFFIPlayerHandle" ].

(** ** Readings of the declarations used by the further properties *)

#[global] Instance typedef_body_eq_dec : EqDecision typedef_body.
Proof. solve_decision. Defined.

#[global] Instance fundecl_eq_dec : EqDecision fundecl.
Proof. solve_decision. Defined.

(** Result and parameters of the callback type [CHFFIEngineCallback]. *)
Definition callback_signature : option (ctype * list (string * ctype)) :=
  match List.find (fun d => String.eqb (fst d) "CHFFIEngineCallback")
                  Header.typedefs with
  | Some (_, FunPtr ret ps) => Some (ret, ps)
  | _ => None
  end.

(** The enumerator that has a given value: the first one in the list. *)
Definition enum_name (es : list enumerator) (v : Z) : option string :=
  fst <$> List.find (fun p => Z.eqb (snd p) v) (enum_values es).




Definition is_function_pointer (n : string) : bool :=
  match List.find (fun d => String.eqb (fst d) n) Header.typedefs with
  | Some (_, FunPtr _ _) => true
  | _ => false
  end.

(** A parameter that crosses the boundary as one machine scalar: a
    pointer (to an object or to a function), an [int32_t] or a [double]. *)
Definition ffi_scalar (t : ctype) : bool :=
  match unqualified (resolve t) with
  | Ptr _ | Int32 | Double => true
  | Named n => is_function_pointer n
  | _ => false
  end.

(** A parameter through which the callee hands a pointer back: a pointer
    to a pointer that is not const. *)
Definition is_out_param (t : ctype) : bool :=
  match resolve t with
  | Ptr (Ptr _) => true
  | _ => false
  end.

Definition out_param_names : list string :=
  [ "outHandle"; "outPattern"; "outPlayer"; "message" ].

Definition out_param_types : list ctype :=
  Ptr (Ptr Char) :: ((fun k => Ptr (Named k)) <$> handle_types).

(** A parameter declared with one of the three handle types. *)
Definition is_handle (t : ctype) : bool :=
  match t with
  | Named k => bool_decide (k ∈ handle_types)
  | _ => false
  end.

(** No handle parameter comes after a parameter that is not a handle. *)
Fixpoint handles_first (ts : list ctype) : bool :=
  match ts with
  | [] => true
  | t :: ts' =>
      if is_handle t then handles_first ts'
      else forallb (fun u => negb (is_handle u)) ts'
  end.

(** The functions that give a handle of type [k] back ([k*] parameter),
    and the ones that only consume one ([void f(k)]). *)
Definition creators (k : string) : list fundecl :=
  List.filter (fun f => bool_decide (Ptr (Named k) ∈ (snd <$> fparams f)))
              Header.functions.

Definition releasers (k : string) : list fundecl :=
  List.filter (fun f => bool_decide (fret f = Void
                                     /\ snd <$> fparams f = [Named k]))
              Header.functions.

(** * Properties of the header *)

(** A property of the declared functions that is decidable is settled by
    running its decision procedure over the twenty-four prototypes. *)
Lemma all_functions (P : fundecl -> Prop) `{!forall f, Decision (P f)} :
  bool_decide (Forall P Header.functions) = true ->
  forall f, f ∈ Header.functions -> P f.
Proof.
  intros Hdec. apply Forall_forall. exact (bool_decide_eq_true_1 _ Hdec).
Qed.

Ltac by_enumeration :=
  lazymatch goal with
  | |- forall f, f ∈ Header.functions -> @?P f =>
      apply (all_functions P); vm_compute; reflexivity
  end.

Lemma error_codes_exact_values :
  enum_values Header.error_enum =
    [ ("CHFFI_ERROR_OK", 0); ("CHFFI_ERROR_NOT_SUPPORTED", 1);
      ("CHFFI_ERROR_ENGINE", 2); ("CHFFI_ERROR_INVALID_HANDLE", 3);
      ("CHFFI_ERROR_INVALID_ARGUMENT", 4); ("CHFFI_ERROR_PATTERN", 5);
      ("CHFFI_ERROR_PLAYER", 6); ("CHFFI_ERROR_IO", 7);
      ("CHFFI_ERROR_DECODE", 8); ("CHFFI_ERROR_RUNTIME", 9);
      ("CHFFI_ERROR_UNKNOWN", 255) ].
Proof. reflexivity. Qed.

Lemma representable_int32 (z : Z) :
  representable Int32 z <-> - 2 ^ 31 <= z <= 2 ^ 31 - 1.
Proof. unfold representable. simpl. reflexivity. Qed.

(** C1. The error enumeration has exactly eleven members: ok,
    not-supported, engine, invalid-handle, invalid-argument, pattern,
    player, I/O, decode, runtime with the values 0 to 9 in this order, and
    unknown with the value 255.  Hence a number is the value of an error
    code exactly when it lies between 0 and 9 or is 255. *)
Theorem error_codes_exact :
  enum_values Header.error_enum =
    [ ("CHFFI_ERROR_OK", 0); ("CHFFI_ERROR_NOT_SUPPORTED", 1);
      ("CHFFI_ERROR_ENGINE", 2); ("CHFFI_ERROR_INVALID_HANDLE", 3);
      ("CHFFI_ERROR_INVALID_ARGUMENT", 4); ("CHFFI_ERROR_PATTERN", 5);
      ("CHFFI_ERROR_PLAYER", 6); ("CHFFI_ERROR_IO", 7);
      ("CHFFI_ERROR_DECODE", 8); ("CHFFI_ERROR_RUNTIME", 9);
      ("CHFFI_ERROR_UNKNOWN", 255) ]
  /\ length Header.error_enum = 11%nat
  /\ (forall z : Z, z ∈ (snd <$> enum_values Header.error_enum)
                    <-> 0 <= z <= 9 \/ z = 255).
Proof.
  split; [reflexivity | split; [reflexivity |]].
  intros z. cbn. rewrite !elem_of_cons, elem_of_nil. lia.
Qed.

(** C2. The event enumeration has exactly four members: stopped, reset,
    interrupted and restarted, with the consecutive values 1, 2, 3, 4 in
    this order. *)
Theorem event_codes_exact :
  enum_values Header.event_enum =
    [ ("CHFFI_EVENT_ENGINE_STOPPED", 1); ("CHFFI_EVENT_ENGINE_RESET", 2);
      ("CHFFI_EVENT_ENGINE_INTERRUPTED", 3); ("CHFFI_EVENT_ENGINE_RESTARTED", 4) ]
  /\ length Header.event_enum = 4%nat
  /\ (forall z : Z, z ∈ (snd <$> enum_values Header.event_enum) <-> 1 <= z <= 4).
Proof.
  repeat (split; [reflexivity |]).
  intros z. cbn. rewrite !elem_of_cons, elem_of_nil. lia.
Qed.

(** C3, as the claim states it, fails: not every declared function
    returns [int32_t]; [chffi_engine_release] is declared and returns
    [void]. *)
Lemma not_every_function_returns_status :
  ~ (forall f, f ∈ Header.functions -> fret f = Int32).
Proof.
  intros H. specialize (H Header.chffi_engine_release).
  assert (Hin : Header.chffi_engine_release ∈ Header.functions)
    by (unfold Header.functions; set_solver).
  apply H in Hin. discriminate Hin.
Qed.

(** C3, amended.  A declared function returns [int32_t] or [void]; the
    ones returning [void] are exactly the three release functions and the
    nine one-shot triggers.  The functions with a [char** message]
    parameter are exactly the ones that return [int32_t] other than
    [chffi_string_free] and [chffi_supports_haptics], and the message is
    their last parameter. *)
Theorem status_and_message_convention (f : fundecl) :
  f ∈ Header.functions ->
  (fret f = Int32 \/ fret f = Void)
  /\ (fret f = Void <-> fname f ∈ (release_functions ++ one_shot_functions)%list)
  /\ (has_message_param f = true <->
        fret f = Int32
        /\ fname f ∉ ["chffi_string_free"; "chffi_supports_haptics"])
  /\ (has_message_param f = true -> last (fparams f) = Some message_param).
Proof. revert f. by_enumeration. Qed.

Lemma status_and_message_convention_witness :
  Header.chffi_player_play ∈ Header.functions
  /\ fret Header.chffi_player_play = Int32
  /\ last (fparams Header.chffi_player_play) = Some message_param.
Proof.
  assert (Hin : Header.chffi_player_play ∈ Header.functions)
    by (unfold Header.functions; set_solver).
  destruct (status_and_message_convention _ Hin) as (_ & _ & Hmsg & Hlast).
  split; [exact Hin | split; [reflexivity |]].
  apply Hlast. reflexivity.
Defined.

(** C4. Each of the nine one-shot feedback triggers is declared with the
    prototype [void f(void)]: it has no parameter, hence needs no engine,
    pattern or player, and it returns no status. *)
Theorem one_shot_triggers_fire_and_forget (n : string) :
  n ∈ one_shot_functions ->
  length one_shot_functions = 9%nat
  /\ exists f, find_function n = Some f
               /\ fname f = n /\ fparams f = [] /\ fret f = Void.
Proof.
  intros Hn. split; [reflexivity |].
  unfold one_shot_functions in Hn.
  repeat (apply elem_of_cons in Hn as [-> | Hn]);
    [eexists; split; [reflexivity | repeat split] .. | ].
  apply elem_of_nil in Hn. contradiction.
Qed.

Lemma one_shot_triggers_fire_and_forget_witness :
  exists f, find_function "chffi_selection" = Some f
            /\ fname f = "chffi_selection" /\ fparams f = [] /\ fret f = Void.
Proof.
  apply (one_shot_triggers_fire_and_forget "chffi_selection").
  unfold one_shot_functions. set_solver.
Defined.

(** C8. The three handle types are typedefs of the one type [void*].  So
    wherever a declared function has a parameter of one handle type, an
    argument of any of the three handle types is accepted. *)
Theorem handle_kinds_not_distinguished (f : fundecl) (p k k' : string) :
  f ∈ Header.functions ->
  (p, Named k) ∈ fparams f ->
  k ∈ handle_types ->
  k' ∈ handle_types ->
  resolve (Named k) = Ptr Void
  /\ resolve (Named k') = Ptr Void
  /\ accepts (Named k) (Named k') = true.
Proof.
  intros _ _ Hk Hk'. unfold handle_types in Hk, Hk'.
  repeat (apply elem_of_cons in Hk as [-> | Hk]);
    try (apply elem_of_nil in Hk; contradiction);
    repeat (apply elem_of_cons in Hk' as [-> | Hk']);
    try (apply elem_of_nil in Hk'; contradiction);
    repeat split; reflexivity.
Qed.

Lemma handle_kinds_not_distinguished_witness :
  param_type Header.chffi_player_create "engine" = Some (Named "CHFFIEngineHandle")
  /\ accepts (Named "CHFFIEngineHandle") (Named "CHFFIPatternHandle") = true.
Proof.
  split; [reflexivity |].
  apply (handle_kinds_not_distinguished Header.chffi_player_create "engine"
           "CHFFIEngineHandle" "CHFFIPatternHandle").
  - unfold Header.functions. set_solver.
  - unfold Header.chffi_player_create. cbn. set_solver.
  - unfold handle_types. set_solver.
  - unfold handle_types. set_solver.
Defined.

(** C9. [chffi_string_free] is declared with return type [int32_t], not
    [void], and every error code of the enumeration is a value of that
    type: freeing a message can report any status to the caller. *)
Theorem string_free_returns_status :
  find_function "chffi_string_free" = Some Header.chffi_string_free
  /\ fret Header.chffi_string_free = Int32
  /\ fret Header.chffi_string_free <> Void
  /\ Forall (fun c => representable (fret Header.chffi_string_free) (snd c))
            (enum_values Header.error_enum).
Proof.
  split; [reflexivity | split; [reflexivity | split; [discriminate |]]].
  cbn [fret Header.chffi_string_free].
  rewrite error_codes_exact_values.
  repeat constructor; apply representable_int32; cbn; lia.
Qed.

(** C10. The [length] parameter of [chffi_pattern_from_ahap_data] has type
    [int32_t].  The values this type admits are exactly those from -2^31
    to 2^31-1: a length above 2^31-1 cannot be passed, and every negative
    number down to -2^31 can. *)
Theorem ahap_data_length_is_int32 (z : Z) :
  param_type Header.chffi_pattern_from_ahap_data "length" = Some Int32
  /\ (representable Int32 z <-> - 2 ^ 31 <= z <= 2 ^ 31 - 1)
  /\ (2 ^ 31 - 1 < z -> ~ representable Int32 z)
  /\ (- 2 ^ 31 <= z < 0 -> representable Int32 z).
Proof.
  split; [reflexivity |].
  rewrite representable_int32. lia.
Qed.

Lemma ahap_data_length_is_int32_witness :
  ~ representable Int32 (2 ^ 31) /\ representable Int32 (-1).
Proof.
  split.
  - apply (ahap_data_length_is_int32 (2 ^ 31)). lia.
  - apply (ahap_data_length_is_int32 (-1)). lia.
Defined.

(** * Properties of the modelled implementation *)

Section WrapperFacts.
Import Impl.
Context `{F : Framework}.

Lemma status_codes_of_header :
  enum_value Header.error_enum "CHFFI_ERROR_OK" = Some CHFFI_ERROR_OK
  /\ enum_value Header.error_enum "CHFFI_ERROR_INVALID_HANDLE"
     = Some CHFFI_ERROR_INVALID_HANDLE.
Proof. split; reflexivity. Qed.

(** *** Failure *)

Lemma failure_reports (code : Z) (s : impl) : reports s (failure code s).
Proof.
  unfold failure, reports. destruct (explains _ _); cbn.
  - split; [apply is_fresh | reflexivity].
  - reflexivity.
Qed.

(** *** Message strings are only ever added by an operation *)

Lemma call_reports (r : request) (s : impl) : reports s (call r s).
Proof.
  unfold call. destruct (forward r (native s)) as [v code].
  case_decide as Hc.
  - reflexivity.
  - exact (failure_reports code (with_native v s)).
Qed.

Lemma create_reports (r : positive -> request)
    (register : positive -> impl -> impl) (s : impl) :
  (forall h st, messages (register h st) = messages st) ->
  reports s (create r register s).
Proof.
  intros Hreg. unfold create.
  destruct (forward _ (native s)) as [v code].
  case_decide as Hc.
  - unfold reports. cbn. rewrite Hreg. reflexivity.
  - exact (failure_reports code (with_native v s)).
Qed.

Lemma on_player_reports (p : option positive) (r : positive -> request)
    (s : impl) : reports s (on_player p r s).
Proof.
  unfold on_player. destruct p as [p |]; [case_decide |];
    auto using call_reports, failure_reports.
Qed.

Lemma run_reports (o : operation) (s : impl) : reports s (run o s).
Proof.
  destruct o; cbn [run];
    try (apply on_player_reports);
    try (apply create_reports; reflexivity).
  - unfold chffi_engine_start. destruct handle; [case_decide |];
      auto using call_reports, failure_reports.
  - unfold chffi_engine_stop. destruct handle; [case_decide |];
      auto using call_reports, failure_reports.
  - unfold chffi_player_create.
    destruct engine, pattern; try apply failure_reports.
    case_decide; [| apply failure_reports].
    apply create_reports. reflexivity.
Qed.

Lemma run_keeps_messages (o : operation) (s : impl) :
  messages s ⊆ messages (fst (run o s)).
Proof.
  pose proof (run_reports o s) as H. unfold reports in H.
  destruct (message (snd (run o s))).
  - destruct H as [_ ->]. set_solver.
  - rewrite H. reflexivity.
Qed.

Lemma run_all_keeps_messages (os : list operation) (s : impl) :
  messages s ⊆ messages (run_all os s).
Proof.
  revert s. induction os as [| o os IH]; intros s; cbn.
  - reflexivity.
  - etransitivity; [apply (run_keeps_messages o) | apply IH].
Qed.

End WrapperFacts.

Section Contracts.
Import Impl.
Context `{F : Framework}.

(** C5, as the claim states it, fails on the type: what is written
    through [char** message] is a [char*], and the parameter of
    [chffi_string_free] is not of that type; it is [const char*]. *)
Lemma string_free_parameter_is_not_the_message_type :
  ~ (exists t, pointee (snd message_param) = Some t
               /\ snd <$> fparams Header.chffi_string_free = [t]).
Proof.
  intros (t & Ht & Hp). cbn in Ht. apply (inj Some) in Ht. subst t.
  discriminate Hp.
Qed.

(** C5, amended.  The functions with a [char** message] parameter are
    the ten operations: engine create, start, stop; pattern from data,
    from file; player create, play, stop, set-loop, send-parameter.  Let
    one of them hand back a message [m].  The header declares the
    operation with return type [int32_t] and the message as last
    parameter; [chffi_string_free] has the single parameter
    [const char* message], for which the [char*] written through
    [char** message] is accepted.  In the modelled implementation [m] is
    a fresh string that stays allocated whatever operations follow (a leak
    unless freed); freeing it once succeeds, restores the strings to what
    they were before and changes nothing else; freeing it a second time is
    undefined. *)
Theorem message_is_freed_exactly_once
    (o : operation) (s s' : impl) (r : outcome) (m : positive) :
  run o s = (s', r) ->
  message r = Some m ->
  (forall f, f ∈ Header.functions ->
             (has_message_param f = true <-> fname f ∈ message_functions))
  /\ name_of o ∈ message_functions
  /\ (exists f, find_function (name_of o) = Some f
                /\ fret f = Int32 /\ last (fparams f) = Some message_param)
  /\ fparams Header.chffi_string_free = [("message", Ptr (Const Char))]
  /\ accepts (Ptr (Const Char)) (Ptr Char) = true
  /\ (m ∉ allocated s)
  /\ (forall os, m ∈ messages (run_all os s'))
  /\ exists s'', chffi_string_free (Some m) s' = Some (s'', CHFFI_ERROR_OK)
                 /\ messages s'' = messages s
                 /\ same_objects s' s''
                 /\ chffi_string_free (Some m) s'' = None.
Proof.
  intros Hrun Hm.
  pose proof (run_reports o s) as Hrep. unfold reports in Hrep.
  rewrite Hrun in Hrep. cbn in Hrep. rewrite Hm in Hrep.
  destruct Hrep as [Hfresh Hmsgs].
  assert (Hold : m ∉ messages s).
  { intros Hin. apply Hfresh. unfold allocated.
    apply elem_of_union_r. exact Hin. }
  assert (Hlive : m ∈ messages s').
  { rewrite Hmsgs. apply elem_of_union_l, elem_of_singleton. reflexivity. }
  split; [by_enumeration |].
  split; [destruct o; apply (bool_decide_unpack _); vm_compute; exact I |].
  split; [destruct o; eexists; (split; [reflexivity | split; reflexivity]) |].
  split; [reflexivity |]. split; [reflexivity |]. split; [exact Hfresh |].
  split; [intros os; apply (run_all_keeps_messages os s' m Hlive) |].
  unfold chffi_string_free at 1. rewrite decide_True by exact Hlive.
  eexists. split; [reflexivity |].
  assert (Hback : messages s' ∖ {[m]} = messages s).
  { rewrite Hmsgs. apply set_eq. intros x.
    rewrite elem_of_difference, elem_of_union, elem_of_singleton.
    split; [tauto |]. intros Hx. split; [tauto | congruence]. }
  split; [exact Hback |]. split; [repeat split |].
  unfold chffi_string_free. cbn. rewrite decide_False; [reflexivity |].
  rewrite Hback. exact Hold.
Qed.

(** C7.  [chffi_supports_haptics] is declared [int32_t f(void)].  In the
    modelled implementation it is defined on every state, in particular on
    the initial one where no engine exists; it returns 0 or 1 and the
    state it returns is the state it was given. *)
Theorem supports_haptics_is_a_pure_query (s : impl) (v : vendor) :
  fparams Header.chffi_supports_haptics = []
  /\ fret Header.chffi_supports_haptics = Int32
  /\ fst (chffi_supports_haptics s) = s
  /\ (snd (chffi_supports_haptics s) = 0 \/ snd (chffi_supports_haptics s) = 1)
  /\ representable (fret Header.chffi_supports_haptics)
       (snd (chffi_supports_haptics s))
  /\ engines (initial v) = ∅
  /\ chffi_supports_haptics (initial v)
     = (initial v, if supported v then 1 else 0).
Proof.
  unfold chffi_supports_haptics. cbn.
  split; [reflexivity |]. split; [reflexivity |]. split; [reflexivity |].
  split; [destruct (supported (native s)); auto |].
  split; [| split; reflexivity].
  apply representable_int32. destruct (supported (native s)); lia.
Qed.

End Contracts.

Lemma message_is_freed_exactly_once_witness :
  exists s'',
    Impl.chffi_string_free (Some 1%positive)
      (fst (Impl.chffi_engine_start None Impl.power_on))
    = Some (s'', 0)
    /\ Impl.chffi_string_free (Some 1%positive) s'' = None.
Proof.
  destruct (message_is_freed_exactly_once (F:=Impl.stub)
              (Impl.engine_start None) Impl.power_on
              (fst (Impl.chffi_engine_start None Impl.power_on))
              (snd (Impl.chffi_engine_start None Impl.power_on))
              1%positive)
    as (_ & _ & _ & _ & _ & _ & _ & s'' & Hfree & _ & _ & Hagain).
  - vm_compute. reflexivity.
  - vm_compute. reflexivity.
  - exists s''. split; [exact Hfree | exact Hagain].
Defined.

(** * Further properties of the header *)

(** ** Looking declarations up *)

Lemma find_by_name_elem {A : Type} (l : list (string * A)) (n : string) (x : A) :
  NoDup (fst <$> l) ->
  snd <$> List.find (fun p => String.eqb (fst p) n) l = Some x <-> (n, x) ∈ l.
Proof.
  induction l as [| [m y] l IH]; intros Hnd; cbn.
  - split; [discriminate | intros H; apply elem_of_nil in H; contradiction].
  - apply NoDup_cons in Hnd as [Hm Hnd]. rewrite elem_of_cons.
    destruct (String.eqb_spec m n) as [-> | Hne]; cbn.
    + split.
      * intros Heq. apply (inj Some) in Heq. subst y. left. reflexivity.
      * intros [Heq | Hin]; [congruence |].
        exfalso. apply Hm. apply list_elem_of_fmap. exists (n, x). auto.
    + rewrite (IH Hnd). split; [auto |].
      intros [Heq | Hin]; [congruence | exact Hin].
Qed.

Lemma find_by_value_elem (l : list (string * Z)) (n : string) (v : Z) :
  NoDup (snd <$> l) ->
  fst <$> List.find (fun p => Z.eqb (snd p) v) l = Some n <-> (n, v) ∈ l.
Proof.
  induction l as [| [m y] l IH]; intros Hnd; cbn.
  - split; [discriminate | intros H; apply elem_of_nil in H; contradiction].
  - apply NoDup_cons in Hnd as [Hy Hnd]. rewrite elem_of_cons.
    destruct (Z.eqb_spec y v) as [-> | Hne]; cbn.
    + split.
      * intros Heq. apply (inj Some) in Heq. subst m. left. reflexivity.
      * intros [Heq | Hin]; [congruence |].
        exfalso. apply Hy. apply list_elem_of_fmap. exists (n, v). auto.
    + rewrite (IH Hnd). split; [auto |].
      intros [Heq | Hin]; [congruence | exact Hin].
Qed.

(** X1. A name identifies at most one prototype: looking a name up finds
    a function exactly when the header declares a function of that name,
    and then it finds that very declaration. *)
Theorem function_lookup_round_trip (n : string) (f : fundecl) :
  find_function n = Some f <-> f ∈ Header.functions /\ fname f = n.
Proof.
  split.
  - intros Hfind. apply List.find_some in Hfind as [Hin Heq].
    split; [apply list_elem_of_In; exact Hin | apply String.eqb_eq; exact Heq].
  - intros [Hin <-]. revert f Hin. by_enumeration.
Qed.

(** X2. In each of the two enumerations names and values determine one
    another: a name has value [v] exactly when [v] is the value of that
    name and of no other.  So a status (or event) code received as a
    number decodes to one enumerator. *)
Theorem enum_codes_round_trip (es : list enumerator) (n : string) (v : Z) :
  es ∈ [Header.error_enum; Header.event_enum] ->
  (enum_value es n = Some v <-> enum_name es v = Some n)
  /\ (enum_value es n = Some v <-> (n, v) ∈ enum_values es).
Proof.
  intros Hes.
  assert (Hnd : NoDup (fst <$> enum_values es) /\ NoDup (snd <$> enum_values es)).
  { apply elem_of_cons in Hes as [-> | Hes];
      [| apply list_elem_of_singleton in Hes; subst es];
      split; apply (bool_decide_unpack _); vm_compute; exact I. }
  destruct Hnd as [Hnames Hvalues].
  unfold enum_value, enum_name.
  rewrite (find_by_name_elem _ n v Hnames), (find_by_value_elem _ n v Hvalues).
  tauto.
Qed.

Lemma enum_codes_round_trip_witness :
  enum_name Header.error_enum 255 = Some "CHFFI_ERROR_UNKNOWN".
Proof.
  apply (enum_codes_round_trip Header.error_enum "CHFFI_ERROR_UNKNOWN" 255).
  - left.
  - reflexivity.
Defined.

(** X3. The two enumerations share no name but they share values: the
    value of every event code is also the value of an error code, under
    another name.  A number alone does not tell an event from a status. *)
Theorem event_values_are_error_values (n : string) (v : Z) :
  (n, v) ∈ enum_values Header.event_enum ->
  enum_value Header.error_enum n = None
  /\ exists m, m <> n /\ enum_value Header.error_enum m = Some v.
Proof.
  intros Hin. cbn in Hin.
  repeat (apply elem_of_cons in Hin as [Heq | Hin];
          [apply pair_equal_spec in Heq as [-> ->];
           split; [reflexivity |];
           lazymatch goal with
           | |- exists m, _ /\ _ = Some ?c =>
               exists (default "" (enum_name Header.error_enum c))
           end;
           split; [vm_compute; discriminate | reflexivity]
          |]).
  apply elem_of_nil in Hin. contradiction.
Qed.

Lemma event_values_are_error_values_witness :
  exists m, m <> "CHFFI_EVENT_ENGINE_RESET"
            /\ enum_value Header.error_enum m = Some 2.
Proof.
  apply (event_values_are_error_values "CHFFI_EVENT_ENGINE_RESET" 2).
  apply (bool_decide_unpack _). vm_compute. exact I.
Defined.

(** ** What crosses the boundary *)

(** X4. Every parameter of every prototype is passed as one scalar: a
    pointer, an [int32_t] or a [double]; nothing is passed by value as a
    structure, a [char] or a [uint8_t].  The same holds for the three
    parameters of the callback type, which returns [void]. *)
Theorem parameters_are_scalars (f : fundecl) (p : string) (t : ctype) :
  f ∈ Header.functions ->
  (p, t) ∈ fparams f ->
  ffi_scalar t = true
  /\ match callback_signature with
     | Some (ret, ps) =>
         ret = Void /\ length ps = 3%nat
         /\ Forall (fun q => ffi_scalar (snd q) = true) ps
     | None => False
     end.
Proof.
  intros Hf Hp. split.
  - assert (Hall : Forall (fun q => ffi_scalar (snd q) = true) (fparams f)).
    { clear Hp. revert f Hf. by_enumeration. }
    rewrite Forall_forall in Hall. exact (Hall (p, t) Hp).
  - cbn. split; [reflexivity | split; [reflexivity |]].
    repeat constructor.
Qed.

Lemma parameters_are_scalars_witness :
  ffi_scalar (Named "CHFFIEngineCallback") = true.
Proof.
  apply (parameters_are_scalars Header.chffi_engine_create "callback").
  - apply (bool_decide_unpack _). vm_compute. exact I.
  - apply (bool_decide_unpack _). vm_compute. exact I.
Defined.

(** ** Typedefs *)

Lemma typedef_object_is_void_pointer (n m : string) (u : ctype) :
  List.find (fun d => String.eqb (fst d) n) Header.typedefs = Some (m, Object u) ->
  u = Ptr Void.
Proof.
  intros Hfind. apply List.find_some in Hfind as [Hin _].
  apply list_elem_of_In in Hin. unfold Header.typedefs in Hin.
  repeat (apply elem_of_cons in Hin as [Heq | Hin]; [congruence |]).
  apply elem_of_nil in Hin. contradiction.
Qed.

Lemma expand_idempotent (t : ctype) : expand (expand t) = expand t.
Proof.
  induction t as [| | | | | u IH | u IH | n]; cbn [expand];
    try reflexivity; try (rewrite IH; reflexivity).
  destruct (List.find _ Header.typedefs) as [[m [u | ret ps]] |] eqn:Hfind.
  - rewrite (typedef_object_is_void_pointer n m u Hfind). reflexivity.
  - cbn [expand]. rewrite Hfind. reflexivity.
  - cbn [expand]. rewrite Hfind. reflexivity.
Qed.

Lemma resolve_is_expand (t : ctype) : resolve t = expand t.
Proof.
  change (resolve t) with (expand (expand (expand (expand t)))).
  rewrite !expand_idempotent. reflexivity.
Qed.



(** ** Out-parameters and the life cycle of handles *)

(** X6. The parameters through which a function hands a pointer back
    (pointers to a non-const pointer) are exactly the ones of type
    [char**] or pointer to a handle type.  They are named [outHandle],
    [outPattern], [outPlayer] or [message], and a function that has one
    returns a status and takes [char** message].  Among the parameters
    of the declared functions, the only one with one of these names that
    is not an out-parameter is the [message] of [chffi_string_free], which
    is an input.  The callback type has no out-parameter: its [message]
    is a [const char*] as well. *)
Theorem out_parameters (f : fundecl) (p : string) (t : ctype) :
  f ∈ Header.functions ->
  (p, t) ∈ fparams f ->
  (is_out_param t = true <-> t ∈ out_param_types)
  /\ (is_out_param t = true ->
      p ∈ out_param_names /\ fret f = Int32 /\ has_message_param f = true)
  /\ (p ∈ out_param_names ->
      is_out_param t = true \/ f = Header.chffi_string_free)
  /\ match callback_signature with
     | Some (_, ps) =>
         Forall (fun q => is_out_param (snd q) = false) ps
         /\ ("message", Ptr (Const Char)) ∈ ps
     | None => False
     end.
Proof.
  intros Hf Hp.
  assert (Hcb : match callback_signature with
                | Some (_, ps) =>
                    Forall (fun q => is_out_param (snd q) = false) ps
                    /\ ("message", Ptr (Const Char)) ∈ ps
                | None => False
                end).
  { cbn. split; [repeat constructor |].
    apply (bool_decide_unpack _). vm_compute. exact I. }
  assert (Hall : Forall (fun q =>
             (is_out_param (snd q) = true <-> snd q ∈ out_param_types)
             /\ (is_out_param (snd q) = true ->
                 fst q ∈ out_param_names
                 /\ fret f = Int32 /\ has_message_param f = true)
             /\ (fst q ∈ out_param_names ->
                 is_out_param (snd q) = true \/ f = Header.chffi_string_free))
           (fparams f)).
  { clear Hp Hcb. revert f Hf. by_enumeration. }
  rewrite Forall_forall in Hall.
  destruct (Hall (p, t) Hp) as (Htype & Hout & Hname).
  split; [exact Htype |]. split; [exact Hout |]. split; [exact Hname |].
  exact Hcb.
Qed.

Lemma out_parameters_witness :
  is_out_param (Ptr (Named "CHFFIPatternHandle")) = true.
Proof.
  apply (out_parameters Header.chffi_pattern_from_ahap_data "outPattern").
  - apply (bool_decide_unpack _). vm_compute. exact I.
  - apply (bool_decide_unpack _). vm_compute. exact I.
  - apply (bool_decide_unpack _). vm_compute. exact I.
Defined.

(** X7. Each handle type has exactly one function that only consumes a
    handle of that type, [void f(k)], and it is one of the three release
    functions.  Each has at least one function that gives such a handle
    back; every such function returns a status and takes
    [char** message], and gives back a handle of no other type. *)
Theorem handle_life_cycle (k : string) :
  k ∈ handle_types ->
  (exists f, releasers k = [f] /\ fname f ∈ release_functions)
  /\ creators k <> []
  /\ Forall (fun g => fret g = Int32 /\ has_message_param g = true
                      /\ forall k', k' ∈ handle_types -> k' <> k ->
                                    g ∉ creators k')
            (creators k).
Proof.
  intros Hk. unfold handle_types in Hk.
  repeat (apply elem_of_cons in Hk as [-> | Hk]);
    try (apply elem_of_nil in Hk; contradiction).
  all: split; [eexists; split;
                 [reflexivity | apply (bool_decide_unpack _); vm_compute; exact I] |].
  all: split; [vm_compute; discriminate |].
  all: apply Forall_forall; intros g Hg; vm_compute in Hg.
  all: repeat (apply elem_of_cons in Hg as [-> | Hg]);
    try (apply elem_of_nil in Hg; contradiction).
  all: split; [reflexivity | split; [reflexivity |]].
  all: intros k' Hk' Hne; unfold handle_types in Hk'.
  all: repeat (apply elem_of_cons in Hk' as [-> | Hk']);
    try (apply elem_of_nil in Hk'; contradiction); try congruence.
  all: apply (bool_decide_unpack _); vm_compute; exact I.
Qed.

Lemma handle_life_cycle_witness :
  exists f, releasers "CHFFIPatternHandle" = [f] /\ fname f ∈ release_functions.
Proof.
  apply (handle_life_cycle "CHFFIPatternHandle").
  apply (bool_decide_unpack _). vm_compute. exact I.
Defined.

(** ** Order of the parameters *)

Lemma handles_first_prefix (ts : list ctype) :
  handles_first ts = true ->
  forall (i j : nat) (t u : ctype),
    ts !! i = Some t -> ts !! j = Some u -> (i <= j)%nat ->
    is_handle u = true -> is_handle t = true.
Proof.
  induction ts as [| t0 ts IH]; intros Hfirst i j t u Hi Hj Hle Hu.
  - rewrite lookup_nil in Hi. discriminate.
  - cbn [handles_first] in Hfirst.
    destruct j as [| j].
    + assert (i = 0%nat) as -> by lia. congruence.
    + cbn in Hj. destruct (is_handle t0) eqn:Ht0.
      * destruct i as [| i]; cbn in Hi; [congruence |].
        apply (IH Hfirst i j t u Hi Hj); [lia | exact Hu].
      * rewrite forallb_forall in Hfirst.
        apply list_elem_of_lookup_2, list_elem_of_In, Hfirst in Hj.
        rewrite Hu in Hj. discriminate.
Qed.

(** X8. In every prototype the handles passed by value come first: a
    parameter that precedes a handle parameter is itself a handle
    parameter. *)
Theorem handle_parameters_come_first
    (f : fundecl) (i j : nat) (p q : string * ctype) :
  f ∈ Header.functions ->
  fparams f !! i = Some p ->
  fparams f !! j = Some q ->
  (i <= j)%nat ->
  is_handle (snd q) = true ->
  is_handle (snd p) = true.
Proof.
  intros Hf Hi Hj Hle Hq.
  assert (Hfirst : handles_first (snd <$> fparams f) = true).
  { clear Hi Hj. revert f Hf. by_enumeration. }
  apply (handles_first_prefix _ Hfirst i j (snd p) (snd q)); try assumption.
  - rewrite list_lookup_fmap, Hi. reflexivity.
  - rewrite list_lookup_fmap, Hj. reflexivity.
Qed.

Lemma handle_parameters_come_first_witness :
  is_handle (snd ("engine", Named "CHFFIEngineHandle")) = true.
Proof.
  apply (handle_parameters_come_first Header.chffi_player_create 0 1
           ("engine", Named "CHFFIEngineHandle")
           ("pattern", Named "CHFFIPatternHandle")).
  - apply (bool_decide_unpack _). vm_compute. exact I.
  - reflexivity.
  - reflexivity.
  - lia.
  - reflexivity.
Defined.

(** ** What a handle parameter accepts *)

Lemma resolve_pointer (t : ctype) : resolve (Ptr t) = Ptr (resolve t).
Proof. rewrite !resolve_is_expand. reflexivity. Qed.

Lemma resolve_handle (k : string) :
  k ∈ handle_types -> resolve (Named k) = Ptr Void.
Proof.
  intros Hk. unfold handle_types in Hk.
  repeat (apply elem_of_cons in Hk as [-> | Hk]; [reflexivity |]).
  apply elem_of_nil in Hk. contradiction.
Qed.

(** X9. A handle being a [void*], a handle parameter accepts a pointer
    to any object type that is not const (so also the address of a
    handle, or a message buffer), and it does not accept a pointer to a
    const type, which would lose the qualifier. *)
Theorem handle_accepts_any_plain_pointer (k : string) (t : ctype) :
  k ∈ handle_types ->
  accepts (Named k) (Ptr t) = negb (is_const (resolve t)).
Proof.
  intros Hk. unfold accepts.
  rewrite (resolve_handle k Hk), resolve_pointer.
  cbn [unqualified is_const is_void].
  rewrite orb_true_r, andb_true_r.
  destruct (is_const (resolve t)); reflexivity.
Qed.

Lemma handle_accepts_any_plain_pointer_witness :
  accepts (Named "CHFFIEngineHandle") (Ptr (Named "CHFFIEngineHandle")) = true
  /\ accepts (Named "CHFFIEngineHandle") (Ptr (Ptr Char)) = true
  /\ accepts (Named "CHFFIEngineHandle") (Ptr (Const Char)) = false.
Proof.
  assert (Hk : "CHFFIEngineHandle" ∈ handle_types)
    by (apply (bool_decide_unpack _); vm_compute; exact I).
  split; [| split].
  - exact (handle_accepts_any_plain_pointer "CHFFIEngineHandle"
             (Named "CHFFIEngineHandle") Hk).
  - exact (handle_accepts_any_plain_pointer "CHFFIEngineHandle"
             (Ptr Char) Hk).
  - exact (handle_accepts_any_plain_pointer "CHFFIEngineHandle"
             (Const Char) Hk).
Defined.

(** ** Codes and the types that carry them *)

(** X10. Every error code is a value of the return type of every
    function that returns something, and every event code is a value of
    the type of the first parameter of the callback, [eventCode]. *)
Theorem codes_fit_their_carriers (f : fundecl) (n : string) (v : Z) :
  f ∈ Header.functions ->
  fret f <> Void ->
  ((n, v) ∈ enum_values Header.error_enum -> representable (fret f) v)
  /\ ((n, v) ∈ enum_values Header.event_enum ->
      exists ret ps t, callback_signature = Some (ret, ps)
                       /\ ps !! 0%nat = Some ("eventCode", t)
                       /\ representable t v).
Proof.
  intros Hf Hret.
  assert (Hint : fret f = Int32).
  { assert (H : fret f = Int32 \/ fret f = Void).
    { clear Hret. revert f Hf. by_enumeration. }
    destruct H; [assumption | contradiction]. }
  rewrite Hint. split; intros Hin.
  - apply representable_int32.
    rewrite error_codes_exact_values in Hin.
    repeat (apply elem_of_cons in Hin as [Heq | Hin];
            [apply pair_equal_spec in Heq as [_ ->]; lia |]).
    apply elem_of_nil in Hin. contradiction.
  - eexists _, _, _. split; [reflexivity | split; [reflexivity |]].
    apply representable_int32. cbn in Hin.
    repeat (apply elem_of_cons in Hin as [Heq | Hin];
            [apply pair_equal_spec in Heq as [_ ->]; lia |]).
    apply elem_of_nil in Hin. contradiction.
Qed.

Lemma codes_fit_their_carriers_witness :
  representable (fret Header.chffi_supports_haptics) 255.
Proof.
  apply (codes_fit_their_carriers Header.chffi_supports_haptics
           "CHFFI_ERROR_UNKNOWN" 255).
  - apply (bool_decide_unpack _). vm_compute. exact I.
  - discriminate.
  - apply (bool_decide_unpack _). vm_compute. exact I.
Defined.
